(** * fabric/utils.py: output and formatting helpers

    A shallow embedding of [fabric.utils] (Python 2).  Python byte strings
    ([str]) are lists of 8-bit characters ([list ascii]); Python integers are
    [Z]; a Python float is an exact dyadic rational [num / 2^exp], which is
    enough here because the only float operations of the module are the
    conversion [float(int)], division by 1024 (exact in binary), comparison,
    [int()] truncation and ['%d'] / ['%.2f'] formatting. *)

From Stdlib Require Import ZArith List String Ascii Bool Lia.
Import ListNotations.

Open Scope Z_scope.

(** ** Python values and exceptions *)

Inductive pyexc :=
| IndexError
| OverflowError
| SystemExit (code : Z).

Inductive result (A : Type) :=
| Ok (a : A)
| Err (e : pyexc).
Arguments Ok {A} a.
Arguments Err {A} e.

Definition bind {A B} (c : result A) (k : A -> result B) : result B :=
  match c with Ok a => k a | Err e => Err e end.
Notation "'let*' x ':=' c 'in' k" := (bind c (fun x => k))
  (at level 200, x name, c at level 100, k at level 200).

(** A Python [str] literal. *)
Definition lit (s : string) : list ascii := list_ascii_of_string s.

(** A float: the exact value [dnum / 2 ^ dexp]. *)
Record dyadic := mkDyadic { dnum : Z; dexp : nat }.

(** A numeric argument: a Python [int] or a Python [float]. *)
Inductive pynum :=
| PInt (z : Z)
| PFloat (num : Z) (exp : nat).

(** ** Number formatting *)

Definition digit (d : Z) : ascii := ascii_of_nat (48 + Z.to_nat d).

Fixpoint dec_aux (fuel : nat) (n : Z) (acc : list ascii) : list ascii :=
  match fuel with
  | O => acc
  | S f =>
      let acc' := digit (n mod 10) :: acc in
      if n <? 10 then acc' else dec_aux f (n / 10) acc'
  end.

(** Decimal digits of a non-negative integer ([log2 n + 1] bounds the
    number of decimal digits). *)
Definition dec (n : Z) : list ascii := dec_aux (S (Z.to_nat (Z.log2 n))) n [].

(** ['%d' % n] for an integer [n]. *)
Definition pct_d (n : Z) : list ascii :=
  if n <? 0 then "-"%char :: dec (- n) else dec n.

(** ['%02d' % n]: zero-padded to width 2. *)
Definition pct_02d (n : Z) : list ascii :=
  let s := pct_d n in
  if (List.length s <? 2)%nat then "0"%char :: s else s.

(** [x / 2^d] rounded to the nearest integer, ties to even ([x >= 0]). *)
Definition round_half_even (x : Z) (d : nat) : Z :=
  let p := 2 ^ Z.of_nat d in
  let q := x / p in
  let r := x mod p in
  if p <? 2 * r then q + 1
  else if 2 * r =? p then (if Z.odd q then q + 1 else q)
  else q.

(** [int(f)] for a float: truncation toward zero. *)
Definition float_int (f : dyadic) : Z := Z.quot (dnum f) (2 ^ Z.of_nat (dexp f)).

(** ['%.2f' % f]: correctly rounded to two decimals, ties to even. *)
Definition pct_2f (f : dyadic) : list ascii :=
  let r := round_half_even (Z.abs (dnum f) * 100) (dexp f) in
  (if dnum f <? 0 then ["-"%char] else [])
    ++ dec (r / 100) ++ "."%char :: digit (r mod 100 / 10) :: digit (r mod 10) :: [].

(** [float(z)] for a non-negative integer: rounded to 53 significant bits. *)
Definition round53 (a : Z) : Z :=
  if a <? 2 ^ 53 then a
  else let s := Z.log2 a - 52 in
       round_half_even a (Z.to_nat s) * 2 ^ s.

(** [float(x)]: an [int] is rounded, and raises [OverflowError] when the
    rounded value does not fit a double; a [float] is itself. *)
Definition to_float (x : pynum) : result dyadic :=
  match x with
  | PInt z =>
      let r := Z.sgn z * round53 (Z.abs z) in
      if 2 ^ 1024 <=? Z.abs r then Err OverflowError else Ok (mkDyadic r 0)
  | PFloat m e => Ok (mkDyadic m e)
  end.

(** [int(x)]. *)
Definition to_int (x : pynum) : Z :=
  match x with
  | PInt z => z
  | PFloat m e => float_int (mkDyadic m e)
  end.

(** ** [human_readable_size] *)

Definition units : list (list ascii) :=
  [lit ""; lit "K"; lit "M"; lit "G"; lit "T"; lit "P"; lit "E"].

(** [size >= 1024] *)
Definition ge1024 (f : dyadic) : bool := 1024 * 2 ^ Z.of_nat (dexp f) <=? dnum f.

(** [size /= 1024] (exact) *)
Definition div1024 (f : dyadic) : dyadic := mkDyadic (dnum f) (dexp f + 10).

(** [while size >= 1024 and unit < len(units): size /= 1024; unit += 1].
    The guard [unit < len(units)] bounds the loop by [len(units)]
    iterations, so [len(units)] is enough fuel (see [hrs_loop_fuel]). *)
Fixpoint hrs_loop (fuel : nat) (size : dyadic) (unit : nat) : dyadic * nat :=
  match fuel with
  | O => (size, unit)
  | S f =>
      if ge1024 size && (unit <? List.length units)%nat
      then hrs_loop f (div1024 size) (S unit)
      else (size, unit)
  end.

Definition human_readable_size (size0 : pynum) : result (list ascii) :=
  let* size := to_float size0 in
  let '(size, unit) := hrs_loop (List.length units) size 0 in
  if (unit =? 0)%nat then Ok (pct_d (float_int size) ++ lit " B")
  else match nth_error units unit with
       | None => Err IndexError
       | Some u => Ok (pct_2f size ++ lit " " ++ u ++ lit "iB")
       end.

(** ** [human_readable_seconds] *)

Definition human_readable_seconds (secs : pynum) : list ascii :=
  let total_secs := to_int secs in
  let hours := total_secs / 3600 in
  let total_secs := total_secs - hours * 3600 in
  let minutes := total_secs / 60 in
  let total_secs := total_secs - minutes * 60 in
  let seconds := total_secs in
  if 0 <? hours then
    pct_02d hours ++ lit "h" ++ pct_02d minutes ++ lit "min" ++ pct_02d seconds ++ lit "s"
  else if 0 <? minutes then
    pct_02d minutes ++ lit "min" ++ pct_02d seconds ++ lit "s"
  else pct_02d seconds ++ lit "s".

(** ** Argument domains used in the statements *)

(** A non-negative argument below [b]. *)
Definition size_below (x : pynum) (b : Z) : Prop :=
  match x with
  | PInt z => 0 <= z < b
  | PFloat m e => 0 <= m < b * 2 ^ Z.of_nat e
  end.

Definition nonneg (x : pynum) : Prop :=
  match x with PInt z => 0 <= z | PFloat m _ => 0 <= m end.

Definition negative (x : pynum) : Prop :=
  match x with PInt z => z < 0 | PFloat m _ => m < 0 end.

(** Two decimal digits of [n] (for [0 <= n < 100]). *)
Definition two_digit (n : Z) : list ascii := [digit (n / 10); digit (n mod 10)].

(** ** Python 2 [str] methods *)

Definition nl : ascii := "010"%char.
Definition cr : ascii := "013"%char.

(** [c.isspace()] for a byte: space, \t, \n, \v, \f, \r. *)
Definition is_space (c : ascii) : bool :=
  let n := nat_of_ascii c in (n =? 32)%nat || ((9 <=? n) && (n <=? 13))%nat.

(** A line made of whitespace only. *)
Definition blank (s : list ascii) : bool := forallb is_space s.

Fixpoint lstrip (s : list ascii) : list ascii :=
  match s with
  | [] => []
  | c :: r => if is_space c then lstrip r else s
  end.

Definition rstrip (s : list ascii) : list ascii := rev (lstrip (rev s)).

(** [s.strip()] *)
Definition strip (s : list ascii) : list ascii := rstrip (lstrip s).

(** [sep.join(xs)] *)
Fixpoint join (sep : list ascii) (xs : list (list ascii)) : list ascii :=
  match xs with
  | [] => []
  | [x] => x
  | x :: r => x ++ sep ++ join sep r
  end.

(** [s.splitlines()] for a byte string: breaks at \n, \r and \r\n; no
    empty last line after a final line break. [cur] is the current line,
    reversed. *)
Fixpoint splitlines_aux (s cur : list ascii) : list (list ascii) :=
  match s with
  | [] => match cur with [] => [] | _ => [rev cur] end
  | c :: r =>
      if Ascii.eqb c nl then rev cur :: splitlines_aux r []
      else if Ascii.eqb c cr then
        match r with
        | c' :: r' => if Ascii.eqb c' nl then rev cur :: splitlines_aux r' []
                      else rev cur :: splitlines_aux r []
        | [] => rev cur :: splitlines_aux r []
        end
      else splitlines_aux r (c :: cur)
  end.

Definition splitlines (s : list ascii) : list (list ascii) := splitlines_aux s [].

(** [s.split('\n')]: the lines seen by a [re.MULTILINE] pattern. *)
Fixpoint split_nl_aux (s cur : list ascii) : list (list ascii) :=
  match s with
  | [] => [rev cur]
  | c :: r => if Ascii.eqb c nl then rev cur :: split_nl_aux r [] else split_nl_aux r (c :: cur)
  end.

Definition split_nl (s : list ascii) : list (list ascii) := split_nl_aux s [].

Fixpoint starts_with (p s : list ascii) : bool :=
  match p, s with
  | [], _ => true
  | c :: p', d :: s' => Ascii.eqb c d && starts_with p' s'
  | _ :: _, [] => false
  end.

(** ** [textwrap.dedent] (Python 2.7) *)

Definition is_sp_tab (c : ascii) : bool :=
  Ascii.eqb c " "%char || Ascii.eqb c "009"%char.

(** [_whitespace_only_re = re.compile('^[ \t]+$', re.MULTILINE)]: a line of
    spaces and tabs only becomes empty. *)
Definition clear_ws_line (l : list ascii) : list ascii :=
  if forallb is_sp_tab l then [] else l.

Fixpoint leading_sp_tab (l : list ascii) : list ascii :=
  match l with
  | c :: r => if is_sp_tab c then c :: leading_sp_tab r else []
  | [] => []
  end.

(** [_leading_whitespace_re], the group [^[ \t]*] followed by [[^ \t\n]]
    in [re.MULTILINE] mode: the leading spaces and tabs of each line holding
    another character. *)
Definition indents_of (ls : list (list ascii)) : list (list ascii) :=
  map leading_sp_tab (filter (fun l => negb (forallb is_sp_tab l)) ls).

Fixpoint common_prefix (a b : list ascii) : list ascii :=
  match a, b with
  | x :: a', y :: b' => if Ascii.eqb x y then x :: common_prefix a' b' else []
  | _, _ => []
  end.

(** The loop [for indent in indents: ...] on [margin]. *)
Definition margin_step (margin : option (list ascii)) (ind : list ascii) : option (list ascii) :=
  match margin with
  | None => Some ind
  | Some m =>
      if starts_with m ind then Some m
      else if starts_with ind m then Some ind
      else Some (common_prefix m ind)
  end.

Definition drop_margin (margin l : list ascii) : list ascii :=
  if starts_with margin l then skipn (List.length margin) l else l.

Definition dedent (text : list ascii) : list ascii :=
  let lines := map clear_ws_line (split_nl text) in
  let margin := fold_left margin_step (indents_of lines) None in
  match margin with
  | Some ((_ :: _) as m) => join [nl] (map (drop_margin m) lines)
  | _ => join [nl] lines
  end.

(** [p] is a prefix of [s]. *)
Definition is_prefix (p s : list ascii) : Prop := exists t, s = p ++ t.

(** ** [indent] *)

(** The [text] argument: a string, or any other iterable of lines. *)
Inductive text_arg :=
| TStr (s : list ascii)
| TLines (ls : list (list ascii)).

Definition indent (text : text_arg) (spaces : Z) (strip_ : bool) : list ascii :=
  let text := match text with TStr s => s | TLines ls => join [nl] ls end in
  let text := if strip_ then dedent text else text in
  let prefix := repeat " "%char (Z.to_nat spaces) in
  let output := join [nl] (map (fun line => prefix ++ line) (splitlines text)) in
  let output := strip output in
  let output := prefix ++ output in
  output.

(** ** Output controls, streams and [sys.exit] *)

(** [fabric.state.output]: the output levels read by this module. *)
Record output_levels := mkOutput {
  aborts : bool;
  warnings : bool;
  user : bool }.

(** [fabric.state.env]: [host_string] is [None] until a host is set. *)
Record env_t := mkEnv { host_string : option (list ascii) }.

Inductive io_event :=
| Write (s : list ascii)
| Flush.

(** [sys.stdout] and [sys.stderr], as the events written to each. *)
Record streams := mkStreams { stdout : list io_event; stderr : list io_event }.

(** Statements run on the streams and may raise. *)
Definition M (A : Type) : Type := streams -> result A * streams.

Definition ret {A} (a : A) : M A := fun s => (Ok a, s).

Definition seq_bind {A B} (c : M A) (k : A -> M B) : M B :=
  fun s => match c s with
           | (Ok a, s') => k a s'
           | (Err e, s') => (Err e, s')
           end.
Notation "c ;; k" := (seq_bind c (fun _ => k)) (at level 61, right associativity).

Definition raise {A} (e : pyexc) : M A := fun s => (Err e, s).

Definition stdout_write (t : list ascii) : M unit :=
  fun s => (Ok tt, mkStreams (stdout s ++ [Write t]) (stderr s)).

Definition stdout_flush : M unit :=
  fun s => (Ok tt, mkStreams (stdout s ++ [Flush]) (stderr s)).

(** [print >> sys.stderr, t]: [t] and a newline. *)
Definition print_stderr (t : list ascii) : M unit :=
  fun s => (Ok tt, mkStreams (stdout s) (stderr s ++ [Write (t ++ [nl])])).

(** [sys.exit(code)] raises [SystemExit(code)]. *)
Definition sys_exit {A} (code : Z) : M A := raise (SystemExit code).

(** [try: c except SystemExit: h]. *)
Definition catch_system_exit {A} (c : M A) (h : M A) : M A :=
  fun s => match c s with
           | (Err (SystemExit _), s') => h s'
           | r => r
           end.

(** The interpreter's exit status for a program [c]: [SystemExit(n)]
    reaching the top exits with [n]; another exception with 1. *)
Definition exit_status (c : M unit) (s : streams) : Z :=
  match fst (c s) with
  | Ok _ => 0
  | Err (SystemExit n) => n
  | Err _ => 1
  end.

Section Messages.

(** [str(v)] for the values passed as messages and texts. *)
Variable V : Type.
Variable str : V -> list ascii.

Definition abort (output : output_levels) (msg : V) : M unit :=
  (if aborts output then
     print_stderr ([nl] ++ lit "Fatal error: " ++ str msg) ;;
     print_stderr ([nl] ++ lit "Aborting.")
   else ret tt) ;;
  sys_exit 1.


(** [if env.host_string and show_prefix: prefix = "[%s] " % env.host_string] *)
Definition host_prefix (env : env_t) (show_prefix : bool) : list ascii :=
  match host_string env with
  | Some ((_ :: _) as h) => if show_prefix then lit "[" ++ h ++ lit "] " else []
  | _ => []
  end.

Definition puts (output : output_levels) (env : env_t) (text : V)
    (show_prefix : bool) (end_ : list ascii) (flush : bool) : M unit :=
  if user output then
    let prefix := host_prefix env show_prefix in
    stdout_write (prefix ++ str text ++ end_) ;;
    (if flush then stdout_flush else ret tt)
  else ret tt.

Definition fastprint (output : output_levels) (env : env_t) (text : V)
    (show_prefix : bool) (end_ : list ascii) (flush : bool) : M unit :=
  puts output env text show_prefix end_ flush.

End Messages.

(** [handle_prompt_abort()]; [abort_on_prompts] is
    [fabric.state.env.abort_on_prompts], and the message is a [str]. *)
Definition handle_prompt_abort (output : output_levels) (abort_on_prompts : bool) : M unit :=
  if abort_on_prompts
  then abort (list ascii) id output (lit "Needed to prompt, but abort-on-prompts was set to True!")
  else ret tt.

(** ** The division loop of [human_readable_size] *)

Lemma pow2_add_10 (d j : nat) :
  2 ^ Z.of_nat (d + 10 * j) = 1024 ^ Z.of_nat j * 2 ^ Z.of_nat d.
Proof.
  rewrite Nat2Z.inj_add, Nat2Z.inj_mul, Z.pow_add_r by lia.
  rewrite Z.mul_comm; f_equal.
  change 1024 with (2 ^ 10). rewrite <- Z.pow_mul_r by lia. reflexivity.
Qed.

(** After [j] divisions the loop holds [m / 2^(d + 10 j)]; it stops at the
    first [k >= j] with [k = len(units)] or [m / 2^(d + 10 k) < 1024]. *)
Lemma hrs_loop_spec (n j : nat) (m : Z) (d : nat) :
  (j + n = 7)%nat ->
  exists k, (j <= k <= 7)%nat /\
    hrs_loop n (mkDyadic m (d + 10 * j)) j = (mkDyadic m (d + 10 * k), k) /\
    (k = j \/ 1024 ^ Z.of_nat k * 2 ^ Z.of_nat d <= m) /\
    (k = 7%nat \/ m < 1024 ^ Z.of_nat (S k) * 2 ^ Z.of_nat d).
Proof.
  revert j. induction n as [|n IH]; intros j Hj.
  - exists j. split; [lia|]. split; [reflexivity|]. split; [now left|]. left; lia.
  - cbn [hrs_loop]. unfold ge1024, div1024; cbn [dnum dexp].
    assert (Hj7 : (j <? 7)%nat = true) by (apply Nat.ltb_lt; lia).
    change (List.length units) with 7%nat. rewrite Hj7, andb_true_r.
    rewrite pow2_add_10.
    replace (1024 * (1024 ^ Z.of_nat j * 2 ^ Z.of_nat d))
      with (1024 ^ Z.of_nat (S j) * 2 ^ Z.of_nat d)
      by (rewrite Nat2Z.inj_succ, Z.pow_succ_r by lia; ring).
    destruct (Z.leb_spec (1024 ^ Z.of_nat (S j) * 2 ^ Z.of_nat d) m) as [Hge|Hlt].
    + destruct (IH (S j) ltac:(lia)) as (k & Hk & Heq & Hlo & Hhi).
      replace (mkDyadic m (d + 10 * j + 10)) with (mkDyadic m (d + 10 * S j))
        by (f_equal; lia).
      exists k. split; [lia|]. split; [exact Heq|]. split; [|exact Hhi].
      right. destruct Hlo as [->|]; auto.
    + exists j. split; [lia|]. split; [reflexivity|]. split; [now left|]. right; exact Hlt.
Qed.

(** More fuel than [len(units)] does not change the loop: the guard
    [unit < len(units)] stops it first. *)
Lemma hrs_loop_fuel (n : nat) (f : dyadic) :
  (7 <= n)%nat -> hrs_loop n f 0 = hrs_loop 7 f 0.
Proof.
  intros Hn. destruct f as [m d].
  replace d with (d + 10 * 0)%nat by lia.
  assert (Hgen : forall n' j, (j + n' = 7)%nat -> forall p, 
            hrs_loop (n' + p) (mkDyadic m (d + 10 * j)) j
            = hrs_loop n' (mkDyadic m (d + 10 * j)) j).
  { induction n' as [|n' IH]; intros j Hj p.
    - replace j with 7%nat by lia. rewrite Nat.add_0_l. destruct p; [reflexivity|].
      simpl. rewrite andb_false_r. reflexivity.
    - cbn [hrs_loop Nat.add]. destruct (ge1024 _ && _); [|reflexivity].
      unfold div1024; cbn [dnum dexp].
      replace (d + 10 * j + 10)%nat with (d + 10 * S j)%nat by lia.
      apply IH. lia. }
  replace n with (7 + (n - 7))%nat by lia. apply (Hgen 7%nat 0%nat); lia.
Qed.

(** ** Conversion of the argument to a float *)

Lemma round_half_even_bounds (x : Z) (d : nat) :
  0 <= x -> x / 2 ^ Z.of_nat d <= round_half_even x d <= x / 2 ^ Z.of_nat d + 1.
Proof.
  intros Hx. unfold round_half_even.
  destruct (_ <? _); [lia|]. destruct (_ =? _); [destruct (Z.odd _)|]; lia.
Qed.

Lemma round53_bounds (a : Z) :
  0 <= a < 2 ^ 60 -> 0 <= round53 a <= 2 ^ 60.
Proof.
  intros Ha. unfold round53.
  destruct (Z.ltb_spec a (2 ^ 53)) as [Hlt|Hge]; [lia|].
  assert (HL53 : 53 <= Z.log2 a) by (apply Z.log2_le_pow2; lia).
  assert (HL60 : Z.log2 a < 60) by (apply Z.log2_lt_pow2; lia).
  set (s := Z.log2 a - 52).
  assert (Hs : Z.of_nat (Z.to_nat s) = s) by (apply Z2Nat.id; lia).
  pose proof (round_half_even_bounds a (Z.to_nat s) ltac:(lia)) as Hr.
  rewrite Hs in Hr.
  assert (HP : 2 ^ 60 = 2 ^ s * 2 ^ (60 - s)) by (rewrite <- Z.pow_add_r; f_equal; lia).
  assert (Hpos : 0 < 2 ^ s) by (apply Z.pow_pos_nonneg; lia).
  assert (Hq : a / 2 ^ s < 2 ^ (60 - s)) by (apply Z.div_lt_upper_bound; lia).
  assert (Hq0 : 0 <= a / 2 ^ s) by (apply Z.div_pos; lia).
  split; [nia|].
  rewrite HP. rewrite (Z.mul_comm (2 ^ s)).
  apply Z.mul_le_mono_nonneg_r; lia.
Qed.

Lemma to_float_below (x : pynum) :
  size_below x (1024 ^ 6) ->
  exists f, to_float x = Ok f /\ 0 <= dnum f <= 1024 ^ 6 * 2 ^ Z.of_nat (dexp f).
Proof.
  destruct x as [z|m e]; unfold size_below, to_float; intros Hx.
  - change (1024 ^ 6) with (2 ^ 60) in *.
    rewrite (Z.abs_eq z) by lia.
    pose proof (round53_bounds z Hx) as Hr.
    assert (Hr' : 0 <= Z.sgn z * round53 z <= 2 ^ 60).
    { destruct (Z.eq_dec z 0) as [->|Hz]; [simpl; lia|].
      rewrite Z.sgn_pos by lia. lia. }
    destruct (Z.leb_spec (2 ^ 1024) (Z.abs (Z.sgn z * round53 z))); [lia|].
    eexists; split; [reflexivity|]. cbn [dnum dexp]. lia.
  - eexists; split; [reflexivity|]. cbn [dnum dexp]. lia.
Qed.

Lemma hrs_loop_from_0 (m : Z) (d : nat) :
  exists k, (k <= 7)%nat /\
    hrs_loop (List.length units) (mkDyadic m d) 0 = (mkDyadic m (d + 10 * k), k) /\
    (k = 0%nat \/ 1024 ^ Z.of_nat k * 2 ^ Z.of_nat d <= m) /\
    (k = 7%nat \/ m < 1024 ^ Z.of_nat (S k) * 2 ^ Z.of_nat d).
Proof.
  destruct (hrs_loop_spec 7 0 m d eq_refl) as (k & Hk & Heq & Hlo & Hhi).
  replace (d + 10 * 0)%nat with d in Heq by lia.
  exists k. split; [lia|]. split; [exact Heq|]. split; assumption.
Qed.

Lemma pow1024_mono (i j : nat) :
  (i <= j)%nat -> 1024 ^ Z.of_nat i <= 1024 ^ Z.of_nat j.
Proof. intros H. apply Z.pow_le_mono_r; lia. Qed.

(** Every argument whose float value is at least [1024^7] makes the loop
    leave [unit = len(units)], one past the last unit name. *)
Lemma human_readable_size_from_1024_pow7 (x : pynum) (f : dyadic) :
  to_float x = Ok f ->
  1024 ^ 7 * 2 ^ Z.of_nat (dexp f) <= dnum f ->
  human_readable_size x = Err IndexError.
Proof.
  intros Hf Hbig. unfold human_readable_size. rewrite Hf. cbn [bind].
  destruct f as [m d]; cbn [dnum dexp] in Hbig.
  destruct (hrs_loop_from_0 m d) as (k & Hk & Heq & _ & Hhi).
  rewrite Heq.
  assert (k = 7%nat) as ->.
  { destruct Hhi as [|Hhi]; [assumption|].
    destruct (Nat.eq_dec k 7) as [|Hne]; [assumption|].
    pose proof (pow1024_mono (S k) 7 ltac:(lia)) as Hm.
    assert (0 < 2 ^ Z.of_nat d) by (apply Z.pow_pos_nonneg; lia).
    change (Z.of_nat 7) with 7 in Hm. nia. }
  reflexivity.
Qed.

(** ** Claims about [human_readable_size] *)

(** C1: the cap of the division loop is one past the last unit:
    [human_readable_size(1024 ** 7)] raises [IndexError] instead of
    formatting with the largest unit ['E']. *)
Theorem human_readable_size_1024_pow7 :
  human_readable_size (PInt (1024 ^ 7)) = Err IndexError.
Proof. vm_compute. reflexivity. Qed.

(** C2: for every non-negative size below [1024^6], [human_readable_size]
    raises nothing; with [f = float(size)] it performs the [k <= 6]
    divisions with [1024^k <= f < 1024^(k+1)] (or none when [f < 1024]),
    prints ["<N> B"] when [k = 0] and ["<X.XX> <Unit>iB"] of [f / 1024^k]
    with the [k]-th unit name otherwise; and the four documented examples. *)
Theorem human_readable_size_below_1024_pow6 (x : pynum) :
  size_below x (1024 ^ 6) ->
  (exists f k,
    to_float x = Ok f /\ 0 <= dnum f /\ (k <= 6)%nat /\
    (k = 0%nat \/ 1024 ^ Z.of_nat k * 2 ^ Z.of_nat (dexp f) <= dnum f) /\
    dnum f < 1024 ^ Z.of_nat (S k) * 2 ^ Z.of_nat (dexp f) /\
    human_readable_size x =
      Ok (if (k =? 0)%nat then pct_d (float_int f) ++ lit " B"
          else pct_2f (mkDyadic (dnum f) (dexp f + 10 * k))
                 ++ lit " " ++ nth k units [] ++ lit "iB")) /\
  human_readable_size (PInt 0) = Ok (lit "0 B") /\
  human_readable_size (PInt 1024) = Ok (lit "1.00 KiB") /\
  human_readable_size (PInt (1024 ^ 2)) = Ok (lit "1.00 MiB") /\
  human_readable_size (PInt (1024 ^ 6)) = Ok (lit "1.00 EiB").
Proof.
  intros Hx. split; [|vm_compute; repeat split].
  destruct (to_float_below x Hx) as ([m d] & Hf & Hb); cbn [dnum dexp] in Hb |- *.
  destruct (hrs_loop_from_0 m d) as (k & Hk & Heq & Hlo & Hhi).
  assert (Hk6 : (k <= 6)%nat).
  { destruct (Nat.eq_dec k 7) as [->|]; [|lia].
    destruct Hlo as [|Hlo]; [lia|].
    assert (0 < 2 ^ Z.of_nat d) by (apply Z.pow_pos_nonneg; lia).
    change (1024 ^ Z.of_nat 7) with (1024 * 1024 ^ 6) in Hlo. nia. }
  exists (mkDyadic m d), k. cbn [dnum dexp].
  split; [exact Hf|]. split; [lia|]. split; [exact Hk6|].
  split; [exact Hlo|]. split.
  { destruct Hhi as [->|]; [lia|assumption]. }
  unfold human_readable_size. rewrite Hf. cbn [bind]. rewrite Heq.
  destruct (Nat.eqb_spec k 0) as [->|Hk0].
  - rewrite Nat.mul_0_r, Nat.add_0_r. reflexivity.
  - rewrite (nth_error_nth' units [] (n := k)) by (simpl; lia). reflexivity.
Qed.

Lemma human_readable_size_below_1024_pow6_witness :
  size_below (PInt 1500) (1024 ^ 6) /\
  exists out, human_readable_size (PInt 1500) = Ok out.
Proof.
  assert (Hx : size_below (PInt 1500) (1024 ^ 6)) by (simpl; lia).
  split; [exact Hx|].
  destruct (human_readable_size_below_1024_pow6 (PInt 1500) Hx)
    as [(f & k & _ & _ & _ & _ & _ & H) _].
  eexists. exact H.
Defined.

(** ** Lemmas on [human_readable_seconds] *)

Lemma pct_02d_two_digit_check :
  forallb (fun k => if list_eq_dec ascii_dec (pct_02d (Z.of_nat k)) (two_digit (Z.of_nat k))
                    then true else false) (seq 0 100) = true.
Proof. vm_compute. reflexivity. Qed.

Lemma pct_02d_two_digit (n : Z) :
  0 <= n < 100 -> pct_02d n = two_digit n.
Proof.
  intros Hn. pose proof pct_02d_two_digit_check as Hc.
  rewrite forallb_forall in Hc. specialize (Hc (Z.to_nat n)).
  rewrite Z2Nat.id in Hc by lia.
  destruct (list_eq_dec _ _ _); [assumption|].
  discriminate Hc. apply in_seq. lia.
Qed.

Lemma to_int_nonneg (x : pynum) :
  nonneg x -> 0 <= to_int x.
Proof.
  destruct x as [z|m e]; simpl; intros H; [lia|].
  unfold float_int; cbn [dnum dexp].
  apply Z.quot_pos; [lia|]. apply Z.pow_pos_nonneg; lia.
Qed.

Lemma to_int_negative (x : pynum) :
  negative x -> to_int x <= 0.
Proof.
  destruct x as [z|m e]; simpl; intros H; [lia|].
  unfold float_int; cbn [dnum dexp].
  assert (0 < 2 ^ Z.of_nat e) by (apply Z.pow_pos_nonneg; lia).
  replace m with (- (- m)) by lia. rewrite Z.quot_opp_l by lia.
  pose proof (Z.quot_pos (- m) (2 ^ Z.of_nat e) ltac:(lia) ltac:(lia)). lia.
Qed.

Lemma hms_rest (t : Z) :
  t - t / 3600 * 3600 = t mod 3600 /\
  t mod 3600 - t mod 3600 / 60 * 60 = t mod 3600 mod 60.
Proof.
  rewrite !Z.mod_eq by lia. lia.
Qed.

(** ** Claims about [human_readable_seconds] *)

(** C3: for a non-negative [secs], the function truncates it ([int()]
    floors a non-negative float), splits it into [h] hours, [mi < 60]
    minutes and [s < 60] seconds, and prints ["HHhMMminSSs"] when [h > 0]
    (hours with ['%02d'], at least two digits), ["MMminSSs"] when [h = 0]
    and [mi > 0], ["SSs"] otherwise, minutes and seconds as two digits;
    and the three documented examples. *)
Theorem human_readable_seconds_nonneg (x : pynum) :
  nonneg x ->
  (to_int x = match x with PInt z => z | PFloat m e => m / 2 ^ Z.of_nat e end) /\
  (exists h mi s,
    to_int x = 3600 * h + 60 * mi + s /\ 0 <= h /\ 0 <= mi < 60 /\ 0 <= s < 60 /\
    human_readable_seconds x =
      if 0 <? h then
        pct_02d h ++ lit "h" ++ two_digit mi ++ lit "min" ++ two_digit s ++ lit "s"
      else if 0 <? mi then two_digit mi ++ lit "min" ++ two_digit s ++ lit "s"
      else two_digit s ++ lit "s") /\
  human_readable_seconds (PInt 10) = lit "10s" /\
  human_readable_seconds (PInt 60) = lit "01min00s" /\
  human_readable_seconds (PInt 3600) = lit "01h00min00s".
Proof.
  intros Hx. split; [|split; [|vm_compute; repeat split]].
  - destruct x as [z|m e]; [reflexivity|]. simpl in Hx |- *.
    unfold float_int; cbn [dnum dexp]. apply Z.quot_div_nonneg; [lia|].
    apply Z.pow_pos_nonneg; lia.
  - pose proof (to_int_nonneg x Hx) as Ht.
    unfold human_readable_seconds. set (t := to_int x) in *.
    destruct (hms_rest t) as [E1 E2]. rewrite E1, E2.
    exists (t / 3600), (t mod 3600 / 60), (t mod 3600 mod 60).
    assert (0 <= t mod 3600 < 3600) by (apply Z.mod_pos_bound; lia).
    assert (0 <= t mod 3600 mod 60 < 60) by (apply Z.mod_pos_bound; lia).
    assert (0 <= t mod 3600 / 60 < 60) by (split; [apply Z.div_pos|apply Z.div_lt_upper_bound]; lia).
    split; [rewrite !Z.mod_eq by lia; lia|].
    split; [apply Z.div_pos; lia|]. split; [assumption|]. split; [assumption|].
    rewrite !(pct_02d_two_digit (t mod 3600 / 60)) by lia.
    rewrite !(pct_02d_two_digit (t mod 3600 mod 60)) by lia.
    reflexivity.
Qed.

(** Witness of C3 at 3725 seconds. *)
Lemma human_readable_seconds_nonneg_witness :
  nonneg (PInt 3725) /\ human_readable_seconds (PInt 3725) = lit "01h02min05s" /\
  to_int (PInt 3725) = 3725.
Proof.
  split; [simpl; lia|]. split; [reflexivity|].
  destruct (human_readable_seconds_nonneg (PInt 3725) ltac:(simpl; lia)) as [H _].
  exact H.
Defined.

(** C4 (as stated): a negative [secs] does not fail; [-10] is printed
    ["59min50s"]. *)
Lemma human_readable_seconds_minus_10 :
  human_readable_seconds (PInt (-10)) = lit "59min50s".
Proof. vm_compute. reflexivity. Qed.

(** C4 (amended): [human_readable_seconds] has no check for negative
    [secs]; it returns a string, with no hours field ([int()] gives
    [t <= 0], so [t // 3600 <= 0]), and minutes and seconds taken from the
    floor remainder [t mod 3600]. *)
Theorem human_readable_seconds_negative (x : pynum) :
  negative x ->
  let t := to_int x in
  t <= 0 /\
  human_readable_seconds x =
    if 0 <? t mod 3600 / 60
    then two_digit (t mod 3600 / 60) ++ lit "min" ++ two_digit (t mod 3600 mod 60) ++ lit "s"
    else two_digit (t mod 3600 mod 60) ++ lit "s".
Proof.
  intros Hx t. pose proof (to_int_negative x Hx) as Ht. fold t in Ht.
  split; [exact Ht|].
  unfold human_readable_seconds. fold t.
  destruct (hms_rest t) as [E1 E2]. rewrite E1, E2.
  assert (0 <= t mod 3600 < 3600) by (apply Z.mod_pos_bound; lia).
  assert (0 <= t mod 3600 mod 60 < 60) by (apply Z.mod_pos_bound; lia).
  assert (0 <= t mod 3600 / 60 < 60) by (split; [apply Z.div_pos|apply Z.div_lt_upper_bound]; lia).
  assert (Hh : t / 3600 <= 0) by (apply Z.div_le_upper_bound; lia).
  destruct (Z.ltb_spec 0 (t / 3600)); [lia|].
  rewrite !(pct_02d_two_digit (t mod 3600 / 60)) by lia.
  rewrite !(pct_02d_two_digit (t mod 3600 mod 60)) by lia.
  reflexivity.
Qed.

Lemma human_readable_seconds_negative_witness :
  negative (PFloat (-7203) 1) /\
  human_readable_seconds (PFloat (-7203) 1) = lit "59min59s".
Proof.
  split; [simpl; lia|].
  destruct (human_readable_seconds_negative (PFloat (-7203) 1) ltac:(simpl; lia)) as [_ H].
  rewrite H. vm_compute. reflexivity.
Defined.

(** ** Lemmas on [indent] *)

Lemma join_cons (sep x : list ascii) (xs : list (list ascii)) :
  join sep (x :: xs) = x ++ List.concat (map (fun r => sep ++ r) xs).
Proof.
  revert x; induction xs as [|y ys IH]; intros x.
  - simpl. now rewrite app_nil_r.
  - change (join sep (x :: y :: ys)) with (x ++ sep ++ join sep (y :: ys)).
    rewrite IH. simpl. now rewrite <- !app_assoc.
Qed.

Lemma join_app (sep : list ascii) (B : list (list ascii)) (y : list ascii) (ys : list (list ascii)) :
  join sep (B ++ y :: ys) =
  List.concat (map (fun b => b ++ sep) B) ++ y ++ List.concat (map (fun r => sep ++ r) ys).
Proof.
  induction B as [|b B IH].
  - apply join_cons.
  - destruct B as [|b' B].
    + replace ([b] ++ y :: ys) with (b :: y :: ys) by reflexivity.
      change (join sep (b :: y :: ys)) with (b ++ sep ++ join sep (y :: ys)).
      rewrite join_cons. simpl. now rewrite <- !app_assoc.
    + replace ((b :: b' :: B) ++ y :: ys) with (b :: ((b' :: B) ++ y :: ys)) by reflexivity.
      change (join sep (b :: (b' :: B) ++ y :: ys))
        with (b ++ sep ++ join sep ((b' :: B) ++ y :: ys)).
      rewrite IH. simpl. now rewrite <- !app_assoc.
Qed.

Lemma lstrip_blank_app (w s : list ascii) :
  blank w = true -> lstrip (w ++ s) = lstrip s.
Proof.
  induction w as [|c w IH]; simpl; [reflexivity|].
  intros H. apply andb_true_iff in H as [Hc Hw]. rewrite Hc. auto.
Qed.

Lemma lstrip_nonblank_app (l t : list ascii) :
  blank l = false -> lstrip (l ++ t) = lstrip l ++ t.
Proof.
  induction l as [|c l IH]; simpl; [discriminate|].
  destruct (is_space c); simpl; auto.
Qed.

Lemma blank_repeat_space (n : nat) : blank (repeat " "%char n) = true.
Proof. induction n; simpl; auto. Qed.

Lemma blank_app (a b : list ascii) : blank (a ++ b) = blank a && blank b.
Proof. unfold blank. apply forallb_app. Qed.

Lemma blank_lines_prefix (prefix : list ascii) (B : list (list ascii)) :
  blank prefix = true -> Forall (fun b => blank b = true) B ->
  blank (List.concat (map (fun b => b ++ [nl]) (map (fun line => prefix ++ line) B))) = true.
Proof.
  intros Hp HB. induction HB as [|b B Hb HB IH]; [reflexivity|].
  simpl. rewrite !blank_app, Hp, Hb, IH. reflexivity.
Qed.

Lemma lstrip_nonblank_head (l : list ascii) :
  blank l = false -> exists c r, lstrip l = c :: r /\ is_space c = false.
Proof.
  induction l as [|c l IH]; simpl; [discriminate|].
  destruct (is_space c) eqn:Hc; simpl; [exact IH|].
  intros _. exists c, l. auto.
Qed.

(** ** Claims about [indent] *)

(** C5: [indent] does not keep the leading whitespace of the first
    non-blank line: [str.strip] removes it together with the added prefix,
    and only the prefix comes back.  [indent("  a\nb", spaces=2)] is
    ["  a\n  b"], not ["    a\n  b"]. *)
Theorem indent_first_line_whitespace_lost :
  indent (TStr (lit "  a" ++ [nl] ++ lit "b")) 2 false = lit "  a" ++ [nl] ++ lit "  b" /\
  indent (TStr (lit "  a" ++ [nl] ++ lit "b")) 2 false <> lit "    a" ++ [nl] ++ lit "  b".
Proof. split; vm_compute; [reflexivity|discriminate]. Qed.

(** C6: a sequence of lines is indented as the string joining them with
    newlines, for every [spaces] and [strip]; and the documented examples. *)
Theorem indent_lines_as_joined_string :
  (forall (L : list (list ascii)) (spaces : Z) (strip_ : bool),
     indent (TLines L) spaces strip_ = indent (TStr (join [nl] L)) spaces strip_) /\
  indent (TLines [lit "a"; lit "b"]) 4 false = indent (TStr (lit "a" ++ [nl] ++ lit "b")) 4 false /\
  indent (TStr (lit "a" ++ [nl] ++ lit "b")) 2 false = lit "  a" ++ [nl] ++ lit "  b".
Proof.
  split; [|split; vm_compute; reflexivity].
  intros L spaces strip_. reflexivity.
Qed.

(** C10: with [strip] false, when the lines of [text] are blank lines [B],
    then a non-blank line [l], then [rest], the result is the prefix of
    [spaces] blanks, then [l] without its leading whitespace (starting with
    a non-whitespace character), then every later line as [prefix ++ r]
    after a newline, only trailing whitespace of the whole being removed. *)
Theorem indent_first_nonblank_line (text : list ascii) (spaces : Z)
    (B : list (list ascii)) (l : list ascii) (rest : list (list ascii)) :
  splitlines text = B ++ l :: rest ->
  Forall (fun b => blank b = true) B ->
  blank l = false ->
  let prefix := repeat " "%char (Z.to_nat spaces) in
  indent (TStr text) spaces false =
    prefix ++ rstrip (lstrip l ++ List.concat (map (fun r => nl :: prefix ++ r) rest)) /\
  exists c r, lstrip l = c :: r /\ is_space c = false.
Proof.
  intros Hsplit HB Hl prefix. split; [|now apply lstrip_nonblank_head].
  unfold indent. fold prefix. rewrite Hsplit, map_app. cbn [map].
  rewrite join_app. unfold strip. f_equal. f_equal.
  rewrite lstrip_blank_app by (apply blank_lines_prefix; [apply blank_repeat_space|exact HB]).
  rewrite <- app_assoc, lstrip_blank_app by apply blank_repeat_space.
  rewrite lstrip_nonblank_app by exact Hl.
  f_equal. rewrite map_map. reflexivity.
Qed.

Lemma indent_first_nonblank_line_witness :
  indent (TStr (lit "  a" ++ [nl] ++ lit "b")) 2 false
    = lit "  " ++ rstrip (lit "a" ++ [nl] ++ lit "  b").
Proof.
  destruct (indent_first_nonblank_line (lit "  a" ++ [nl] ++ lit "b") 2 []
              (lit "  a") [lit "b"] eq_refl (Forall_nil _) eq_refl) as [H _].
  rewrite H. reflexivity.
Defined.

(** ** Claims about [puts] and [abort] *)

(** C7: with the [user] output level off, [puts] writes nothing and does
    not flush: the streams are unchanged and nothing is raised. *)
Theorem puts_user_off (V : Type) (str : V -> list ascii) (output : output_levels)
    (env : env_t) (text : V) (show_prefix : bool) (end_ : list ascii) (flush : bool)
    (s : streams) :
  user output = false ->
  puts V str output env text show_prefix end_ flush s = (Ok tt, s).
Proof. intros H. unfold puts. rewrite H. reflexivity. Qed.

Lemma puts_user_off_witness :
  puts (list ascii) id (mkOutput true true false) (mkEnv (Some (lit "h1"))) (lit "x")
    true [nl] true (mkStreams [] []) = (Ok tt, mkStreams [] []).
Proof. apply puts_user_off. reflexivity. Defined.

(** C8: with the [user] output level on, [puts] writes [str(text)] and
    [end] to stdout, after the prefix ["[<host>] "] exactly when
    [show_prefix] is set and the host string is set and non-empty, then
    flushes when asked; the host ["h1"] gives output starting ["[h1] "],
    and an unset host no prefix whatever [show_prefix]. *)
Theorem puts_user_on (V : Type) (str : V -> list ascii) (output : output_levels)
    (env : env_t) (text : V) (show_prefix : bool) (end_ : list ascii) (flush : bool)
    (s : streams) :
  user output = true ->
  (exists pre,
    puts V str output env text show_prefix end_ flush s =
      (Ok tt, mkStreams (stdout s ++ Write (pre ++ str text ++ end_)
                           :: (if flush then [Flush] else [])) (stderr s)) /\
    (forall h, show_prefix = true -> host_string env = Some h -> h <> [] ->
       pre = lit "[" ++ h ++ lit "] ") /\
    ((show_prefix = false \/ host_string env = None \/ host_string env = Some []) ->
       pre = [])) /\
  (forall sp, puts V str output (mkEnv None) text sp end_ flush s =
     (Ok tt, mkStreams (stdout s ++ Write (str text ++ end_)
                          :: (if flush then [Flush] else [])) (stderr s))) /\
  (exists rest, puts V str output (mkEnv (Some (lit "h1"))) text true end_ flush s =
     (Ok tt, mkStreams (stdout s ++ Write (lit "[h1] " ++ rest)
                          :: (if flush then [Flush] else [])) (stderr s))).
Proof.
  intros Hu. split; [|split].
  - exists (host_prefix env show_prefix). split.
    + unfold puts. rewrite Hu.
      destruct flush; unfold seq_bind, stdout_write, stdout_flush, ret; cbn;
        rewrite <- ?app_assoc; reflexivity.
    + unfold host_prefix. split.
      * intros h -> -> Hh. destruct h as [|c h]; [congruence|]. reflexivity.
      * intros [->|[->| ->]]; [destruct (host_string env) as [[|c h]|]|..]; reflexivity.
  - intros sp. unfold puts. rewrite Hu.
    destruct flush; unfold seq_bind, stdout_write, stdout_flush, ret; cbn;
      rewrite <- ?app_assoc; reflexivity.
  - exists (str text ++ end_). unfold puts. rewrite Hu.
    destruct flush; unfold seq_bind, stdout_write, stdout_flush, ret; cbn;
      rewrite <- ?app_assoc; reflexivity.
Qed.

Lemma puts_user_on_witness :
  puts (list ascii) id (mkOutput true true true) (mkEnv (Some (lit "h1"))) (lit "x")
    true [nl] false (mkStreams [] []) =
  (Ok tt, mkStreams [Write (lit "[h1] x" ++ [nl])] []).
Proof.
  destruct (puts_user_on (list ascii) id (mkOutput true true true) (mkEnv (Some (lit "h1")))
              (lit "x") true [nl] false (mkStreams [] []) eq_refl)
    as [(pre & H & Hpre & _) _].
  rewrite H, (Hpre (lit "h1") eq_refl eq_refl ltac:(discriminate)). reflexivity.
Defined.

(** C9: [abort] always raises [SystemExit(1)], so the process exits with
    status 1 unless a caller catches it, and a [except SystemExit] handler
    runs on the streams [abort] left; the two lines ["\nFatal error: msg"]
    and ["\nAborting."] are written to stderr exactly when the [aborts]
    output level is on, and nothing is written to stdout. *)
Theorem abort_exits_1 (V : Type) (str : V -> list ascii) (output : output_levels)
    (msg : V) (s : streams) :
  let s' := mkStreams (stdout s)
              (stderr s ++ if aborts output
                            then [Write ([nl] ++ lit "Fatal error: " ++ str msg ++ [nl]);
                                  Write ([nl] ++ lit "Aborting." ++ [nl])]
                            else []) in
  abort V str output msg s = (Err (SystemExit 1), s') /\
  exit_status (abort V str output msg) s = 1 /\
  (forall h : M unit, catch_system_exit (abort V str output msg) h s = h s').
Proof.
  intros s'.
  assert (E : abort V str output msg s = (Err (SystemExit 1), s')).
  { unfold abort, s'. destruct (aborts output);
      unfold seq_bind, print_stderr, sys_exit, raise, ret; cbn.
    - rewrite <- !app_assoc. reflexivity.
    - rewrite app_nil_r. destruct s; reflexivity. }
  split; [exact E|]. split.
  - unfold exit_status. rewrite E. reflexivity.
  - intros h. unfold catch_system_exit. rewrite E. reflexivity.
Qed.

(** ** Further properties of the output helpers *)


(** [fastprint] with its default arguments ([show_prefix=False], [end=""],
    [flush=True]) writes [str(text)] alone to stdout, without a host prefix
    even when a host is set, and then flushes; with the [user] output level
    off it does nothing. *)
Theorem fastprint_defaults (V : Type) (str : V -> list ascii) (output : output_levels)
    (env : env_t) (text : V) (s : streams) :
  fastprint V str output env text false [] true s =
    if user output
    then (Ok tt, mkStreams (stdout s ++ [Write (str text); Flush]) (stderr s))
    else (Ok tt, s).
Proof.
  unfold fastprint, puts. destruct (user output); [|reflexivity].
  unfold host_prefix. destruct (host_string env) as [[|c h]|];
    unfold seq_bind, stdout_write, stdout_flush; cbn;
    rewrite app_nil_r, <- app_assoc; reflexivity.
Qed.

(** [handle_prompt_abort] does nothing when [abort_on_prompts] is off; when
    it is on, it raises [SystemExit(1)] and writes the fatal report about
    prompting to stderr exactly when the [aborts] output level is on. *)
Theorem handle_prompt_abort_spec (output : output_levels) (abort_on_prompts : bool)
    (s : streams) :
  handle_prompt_abort output abort_on_prompts s =
    if abort_on_prompts
    then (Err (SystemExit 1),
          mkStreams (stdout s)
            (stderr s ++ if aborts output
               then [Write ([nl] ++ lit "Fatal error: Needed to prompt, but abort-on-prompts was set to True!" ++ [nl]);
                     Write ([nl] ++ lit "Aborting." ++ [nl])]
               else []))
    else (Ok tt, s).
Proof.
  unfold handle_prompt_abort. destruct abort_on_prompts; [|reflexivity].
  unfold abort. destruct (aborts output);
    unfold seq_bind, print_stderr, sys_exit, raise, ret; cbn.
  - rewrite <- !app_assoc. reflexivity.
  - rewrite app_nil_r. destruct s; reflexivity.
Qed.

(** ** Further properties of [human_readable_size] *)

Lemma round53_nonneg (a : Z) : 0 <= a -> 0 <= round53 a.
Proof.
  intros Ha. unfold round53. destruct (a <? 2 ^ 53); [lia|].
  set (s := Z.log2 a - 52).
  pose proof (round_half_even_bounds a (Z.to_nat s) Ha) as [Hlo _].
  assert (0 <= a / 2 ^ Z.of_nat (Z.to_nat s)) by (apply Z.div_pos; [lia|apply Z.pow_pos_nonneg; lia]).
  apply Z.mul_nonneg_nonneg; [lia|]. apply Z.pow_nonneg; lia.
Qed.

(** At and above [2^53], [float(a)] is at least the largest power of two
    not above [a]. *)
Lemma round53_ge_pow2 (a : Z) : 2 ^ 53 <= a -> 2 ^ Z.log2 a <= round53 a.
Proof.
  intros Ha. unfold round53.
  destruct (Z.ltb_spec a (2 ^ 53)) as [|_]; [lia|].
  assert (HL : 53 <= Z.log2 a) by (apply Z.log2_le_pow2; lia).
  set (s := Z.log2 a - 52).
  assert (Hs : Z.of_nat (Z.to_nat s) = s) by (apply Z2Nat.id; lia).
  pose proof (round_half_even_bounds a (Z.to_nat s) ltac:(lia)) as [Hlo _].
  rewrite Hs in Hlo.
  assert (Hspec : 2 ^ Z.log2 a <= a) by (apply Z.log2_spec; lia).
  assert (HP : 2 ^ Z.log2 a = 2 ^ 52 * 2 ^ s) by (rewrite <- Z.pow_add_r; [f_equal|..]; lia).
  assert (Hpos : 0 < 2 ^ s) by (apply Z.pow_pos_nonneg; lia).
  assert (Hq : 2 ^ 52 <= a / 2 ^ s).
  { apply Z.div_le_lower_bound; lia. }
  rewrite HP. apply Z.mul_le_mono_nonneg_r; lia.
Qed.

(** An integer size of magnitude [2^1024] or more cannot be converted by
    [float(size)]: [human_readable_size] raises [OverflowError]. *)
Theorem human_readable_size_overflow (z : Z) :
  2 ^ 1024 <= Z.abs z -> human_readable_size (PInt z) = Err OverflowError.
Proof.
  intros Hz. unfold human_readable_size, to_float.
  pose proof (round53_ge_pow2 (Z.abs z) ltac:(lia)) as Hr.
  assert (HL : 1024 <= Z.log2 (Z.abs z)).
  { rewrite <- (Z.log2_pow2 1024) by lia. apply Z.log2_le_mono. exact Hz. }
  assert (H2 : 2 ^ 1024 <= 2 ^ Z.log2 (Z.abs z)) by (apply Z.pow_le_mono_r; lia).
  assert (Habs : Z.abs (Z.sgn z * round53 (Z.abs z)) = round53 (Z.abs z)).
  { assert (H0r : 0 <= round53 (Z.abs z)) by (apply round53_nonneg; lia).
    rewrite Z.abs_mul, (Z.abs_eq (round53 (Z.abs z))) by exact H0r.
    destruct (Z.lt_trichotomy z 0) as [Hn|[H0|Hp]].
    - rewrite Z.sgn_neg by lia. change (Z.abs (-1)) with 1. lia.
    - exfalso. rewrite H0 in Hz.
      assert (0 < 2 ^ 1024) by (apply Z.pow_pos_nonneg; lia).
      change (Z.abs 0) with 0 in Hz. lia.
    - rewrite Z.sgn_pos by lia. change (Z.abs 1) with 1. lia. }
  rewrite Habs. destruct (Z.leb_spec (2 ^ 1024) (round53 (Z.abs z))); [reflexivity|lia].
Qed.

Lemma human_readable_size_overflow_witness :
  human_readable_size (PInt (- 2 ^ 1024)) = Err OverflowError.
Proof. apply human_readable_size_overflow. rewrite Z.abs_opp. lia. Defined.



(** Whenever a unit is used ([1024 <= float(size) < 1024^7]), the unit is
    one of ['K'] to ['E'] and the printed number, [r / 100] with two
    decimals, lies between [1.00] and [1024.00]: rounding to two decimals
    can print ["1024.00"] in the smaller unit. *)
Theorem human_readable_size_unit_value (x : pynum) (f : dyadic) :
  to_float x = Ok f ->
  1024 * 2 ^ Z.of_nat (dexp f) <= dnum f < 1024 ^ 7 * 2 ^ Z.of_nat (dexp f) ->
  exists k u r,
    (1 <= k <= 6)%nat /\ nth_error units k = Some u /\ 100 <= r <= 102400 /\
    human_readable_size x =
      Ok ((dec (r / 100) ++ ["."%char; digit (r mod 100 / 10); digit (r mod 10)])
            ++ lit " " ++ u ++ lit "iB").
Proof.
  intros Hf Hb. destruct f as [m d]; cbn [dnum dexp] in Hb.
  assert (Hp : 0 < 2 ^ Z.of_nat d) by (apply Z.pow_pos_nonneg; lia).
  destruct (hrs_loop_from_0 m d) as (k & Hk & Heq & Hlo & Hhi).
  assert (Hk0 : k <> 0%nat).
  { intros ->. destruct Hhi as [|Hhi]; [discriminate|].
    change (1024 ^ Z.of_nat 1) with 1024 in Hhi. lia. }
  assert (Hk6 : k <> 7%nat).
  { intros ->. destruct Hlo as [|Hlo]; [discriminate|].
    change (Z.of_nat 7) with 7 in Hlo. lia. }
  destruct Hlo as [|Hlo]; [contradiction|].
  destruct Hhi as [|Hhi]; [contradiction|].
  assert (Hu : exists u, nth_error units k = Some u).
  { destruct (nth_error units k) eqn:E; [eauto|].
    apply nth_error_None in E. simpl in E. lia. }
  destruct Hu as [u Hu].
  set (P := 2 ^ Z.of_nat (d + 10 * k)).
  assert (HP : P = 1024 ^ Z.of_nat k * 2 ^ Z.of_nat d) by apply pow2_add_10.
  assert (HP1 : 1024 ^ Z.of_nat (S k) * 2 ^ Z.of_nat d = 1024 * P).
  { rewrite HP, Nat2Z.inj_succ, Z.pow_succ_r by lia. ring. }
  assert (HPpos : 0 < P) by (apply Z.pow_pos_nonneg; lia).
  set (r := round_half_even (Z.abs m * 100) (d + 10 * k)).
  pose proof (round_half_even_bounds (Z.abs m * 100) (d + 10 * k) ltac:(lia)) as [Hr1 Hr2].
  fold P r in Hr1, Hr2.
  assert (H100 : 100 <= Z.abs m * 100 / P) by (apply Z.div_le_lower_bound; lia).
  assert (Hup : Z.abs m * 100 / P < 102400) by (apply Z.div_lt_upper_bound; lia).
  exists k, u, r. split; [lia|]. split; [exact Hu|]. split; [lia|].
  unfold human_readable_size. rewrite Hf. cbn [bind]. rewrite Heq.
  destruct (Nat.eqb_spec k 0) as [|_]; [contradiction|]. rewrite Hu.
  unfold pct_2f. cbn [dnum dexp]. fold r.
  destruct (Z.ltb_spec m 0) as [|_]; [lia|]. reflexivity.
Qed.

Lemma human_readable_size_unit_value_witness :
  (exists k u r,
    (1 <= k <= 6)%nat /\ nth_error units k = Some u /\ 100 <= r <= 102400 /\
    human_readable_size (PInt (1024 ^ 2 - 1)) =
      Ok ((dec (r / 100) ++ ["."%char; digit (r mod 100 / 10); digit (r mod 10)])
            ++ lit " " ++ u ++ lit "iB")) /\
  human_readable_size (PInt (1024 ^ 2 - 1)) = Ok (lit "1024.00 KiB").
Proof.
  split; [|vm_compute; reflexivity].
  apply (human_readable_size_unit_value (PInt (1024 ^ 2 - 1)) (mkDyadic (1024 ^ 2 - 1) 0)).
  - vm_compute. reflexivity.
  - cbn [dnum dexp]. simpl. lia.
Defined.

(** ** Further properties of [indent] *)

Lemma lstrip_blank (s : list ascii) : blank s = true -> lstrip s = [].
Proof.
  induction s as [|c s IH]; simpl; [reflexivity|].
  intros H. apply andb_true_iff in H as [-> Hs]. auto.
Qed.

Lemma blank_rev (s : list ascii) : blank (rev s) = blank s.
Proof.
  induction s as [|c s IH]; simpl; [reflexivity|].
  rewrite blank_app, IH. simpl. rewrite andb_true_r, andb_comm. reflexivity.
Qed.

Lemma blank_join (sep : list ascii) (xs : list (list ascii)) :
  blank sep = true -> Forall (fun x => blank x = true) xs -> blank (join sep xs) = true.
Proof.
  intros Hs Hx. induction Hx as [|x xs Hx Hxs IH]; [reflexivity|].
  destruct xs as [|y ys]; [exact Hx|].
  change (join sep (x :: y :: ys)) with (x ++ sep ++ join sep (y :: ys)).
  rewrite !blank_app, Hx, Hs, IH. reflexivity.
Qed.

Lemma splitlines_aux_blank (n : nat) (s cur : list ascii) :
  (List.length s <= n)%nat -> blank s = true -> blank cur = true ->
  Forall (fun l => blank l = true) (splitlines_aux s cur).
Proof.
  revert s cur. induction n as [|n IH]; intros s cur Hn Hs Hc;
    (assert (Hrc : blank (rev cur) = true) by (rewrite blank_rev; exact Hc)).
  - destruct s; [|simpl in Hn; lia]. simpl.
    destruct cur; constructor; [exact Hrc|constructor].
  - destruct s as [|c r].
    + simpl. destruct cur; constructor; [exact Hrc|constructor].
    + simpl in Hs. apply andb_true_iff in Hs as [Hc0 Hr]. simpl in Hn.
      simpl. destruct (Ascii.eqb c nl).
      { constructor; [exact Hrc|]. apply IH; auto; lia. }
      destruct (Ascii.eqb c cr).
      { destruct r as [|c' r'].
        - constructor; [exact Hrc|]. apply IH; auto; lia.
        - simpl in Hr, Hn. apply andb_true_iff in Hr as [Hc' Hr'].
          destruct (Ascii.eqb c' nl); (constructor; [exact Hrc|]).
          + apply IH; auto; lia.
          + apply IH; [simpl; lia| |reflexivity]. simpl. rewrite Hc'. exact Hr'. }
      apply IH; auto; [lia|]. simpl. rewrite Hc0, Hc. reflexivity.
Qed.

Lemma split_nl_aux_blank (s cur : list ascii) :
  blank s = true -> blank cur = true ->
  Forall (fun l => blank l = true) (split_nl_aux s cur).
Proof.
  revert cur. induction s as [|c r IH]; intros cur Hs Hc;
    (assert (Hrc : blank (rev cur) = true) by (rewrite blank_rev; exact Hc)).
  - simpl. constructor; [exact Hrc|constructor].
  - simpl in Hs. apply andb_true_iff in Hs as [Hc0 Hr]. simpl.
    destruct (Ascii.eqb c nl).
    + constructor; [exact Hrc|]. apply IH; auto.
    + apply IH; auto. simpl. rewrite Hc0, Hc. reflexivity.
Qed.

Lemma blank_skipn (n : nat) (l : list ascii) : blank l = true -> blank (skipn n l) = true.
Proof.
  intros H. rewrite <- (firstn_skipn n l), blank_app in H.
  apply andb_true_iff in H as [_ H]. exact H.
Qed.

Lemma dedent_blank (text : list ascii) : blank text = true -> blank (dedent text) = true.
Proof.
  intros Ht. pose proof (split_nl_aux_blank text [] Ht eq_refl) as Hl.
  assert (Hc : Forall (fun l => blank l = true) (map clear_ws_line (split_nl text))).
  { apply Forall_map. eapply Forall_impl; [|exact Hl].
    intros l Hb. unfold clear_ws_line. destruct (forallb _ _); [reflexivity|exact Hb]. }
  unfold dedent.
  destruct (fold_left _ _ _) as [[|c m]|]; try (apply blank_join; [reflexivity|exact Hc]).
  apply blank_join; [reflexivity|]. apply Forall_map. eapply Forall_impl; [|exact Hc].
  intros l Hb. unfold drop_margin. destruct (starts_with _ _); [apply blank_skipn|]; exact Hb.
Qed.

Lemma indent_blank_nostrip (text : list ascii) (spaces : Z) :
  blank text = true -> indent (TStr text) spaces false = repeat " "%char (Z.to_nat spaces).
Proof.
  intros Ht. unfold indent. cbn zeta. unfold strip, rstrip.
  rewrite (lstrip_blank (join _ _)); [cbn [rev lstrip]; apply app_nil_r|].
  apply blank_join; [reflexivity|].
  apply Forall_map. eapply Forall_impl; [|exact (splitlines_aux_blank _ text [] (le_n _) Ht eq_refl)].
  intros l Hl. rewrite blank_app, blank_repeat_space, Hl. reflexivity.
Qed.

(** A text of whitespace only (the empty string included) is indented to
    the bare prefix of [spaces] blanks, with or without [strip]. *)
Theorem indent_blank_text (text : list ascii) (spaces : Z) (strip_ : bool) :
  blank text = true -> indent (TStr text) spaces strip_ = repeat " "%char (Z.to_nat spaces).
Proof.
  intros Ht. destruct strip_.
  - change (indent (TStr text) spaces true) with (indent (TStr (dedent text)) spaces false).
    apply indent_blank_nostrip, dedent_blank, Ht.
  - apply indent_blank_nostrip, Ht.
Qed.

Lemma indent_blank_text_witness :
  indent (TStr (lit " " ++ [nl; "009"%char])) 3 true = lit "   ".
Proof. apply indent_blank_text. reflexivity. Defined.

Lemma lstrip_shape (s : list ascii) :
  lstrip s = [] \/ exists c r, lstrip s = c :: r /\ is_space c = false.
Proof.
  destruct (blank s) eqn:Hb; [left; apply lstrip_blank, Hb|right; apply lstrip_nonblank_head, Hb].
Qed.

Lemma lstrip_snoc (w : list ascii) (c : ascii) :
  is_space c = false -> exists t, lstrip (w ++ [c]) = t ++ [c].
Proof.
  intros Hc. induction w as [|a w IH]; simpl.
  - rewrite Hc. exists []. reflexivity.
  - destruct (is_space a); [exact IH|]. exists (a :: w). reflexivity.
Qed.

Lemma strip_shape (s : list ascii) :
  strip s = [] \/
  ((exists c r, strip s = c :: r /\ is_space c = false) /\
   (exists r c, strip s = r ++ [c] /\ is_space c = false)).
Proof.
  unfold strip, rstrip.
  destruct (lstrip_shape s) as [-> | (c & r & -> & Hc)]; [left; reflexivity|right].
  split.
  - simpl. destruct (lstrip_snoc (rev r) c Hc) as [t ->].
    rewrite rev_app_distr. simpl. exists c, (rev t). auto.
  - destruct (lstrip_shape (rev (c :: r))) as [E | (c' & r' & E & Hc')].
    + simpl in E. destruct (lstrip_snoc (rev r) c Hc) as [t Et].
      rewrite Et in E. destruct t; discriminate.
    + rewrite E. simpl. exists (rev r'), c'. auto.
Qed.

(** The result of [indent] is the prefix of [spaces] blanks followed by a
    body that is empty or starts and ends with a non-whitespace character:
    no blank lines or trailing newline survive, whatever the text. *)
Theorem indent_result_shape (text : text_arg) (spaces : Z) (strip_ : bool) :
  exists body,
    indent text spaces strip_ = repeat " "%char (Z.to_nat spaces) ++ body /\
    (body = [] \/
     ((exists c r, body = c :: r /\ is_space c = false) /\
      (exists r c, body = r ++ [c] /\ is_space c = false))).
Proof.
  unfold indent. cbn zeta. eexists. split; [reflexivity|]. apply strip_shape.
Qed.

(** ** [dedent] on a uniformly indented block *)

Lemma starts_with_iff (p s : list ascii) :
  starts_with p s = true <-> exists t, s = p ++ t.
Proof.
  revert s. induction p as [|c p IH]; intros s; simpl.
  - split; [intros _; exists s; reflexivity|reflexivity].
  - destruct s as [|d s].
    + split; [discriminate|intros [t Ht]; discriminate].
    + rewrite andb_true_iff, IH. split.
      * intros [Hcd [t ->]]. apply Ascii.eqb_eq in Hcd. subst. exists t. reflexivity.
      * intros [t Ht]. injection Ht as -> ->. split; [apply Ascii.eqb_refl|eauto].
Qed.

Lemma starts_with_app (m x a : list ascii) :
  starts_with (m ++ x) (m ++ a) = starts_with x a.
Proof. induction m as [|c m IH]; simpl; [reflexivity|]. rewrite Ascii.eqb_refl. exact IH. Qed.

Lemma common_prefix_app (m x a : list ascii) :
  common_prefix (m ++ x) (m ++ a) = m ++ common_prefix x a.
Proof. induction m as [|c m IH]; simpl; [reflexivity|]. rewrite Ascii.eqb_refl, IH. reflexivity. Qed.

Lemma common_prefix_prefix (x a : list ascii) :
  (exists t, x = common_prefix x a ++ t) /\ (exists t, a = common_prefix x a ++ t).
Proof.
  revert a. induction x as [|c x IH]; intros a.
  - split; eexists; reflexivity.
  - destruct a as [|d a]; simpl; [split; eexists; reflexivity|].
    destruct (Ascii.eqb_spec c d) as [<-|_]; [|split; eexists; reflexivity].
    destruct (IH a) as [[t1 H1] [t2 H2]]. split.
    + exists t1. simpl. f_equal. exact H1.
    + exists t2. simpl. f_equal. exact H2.
Qed.

Lemma is_prefix_trans (p q s : list ascii) : is_prefix p q -> is_prefix q s -> is_prefix p s.
Proof. intros [t1 ->] [t2 ->]. exists (t1 ++ t2). now rewrite <- app_assoc. Qed.

(** One step of the margin loop on [m ++ x] and [m ++ a] keeps [m] and
    moves to a common prefix of [x] and [a]. *)
Lemma margin_step_app (m x a : list ascii) :
  exists y, margin_step (Some (m ++ x)) (m ++ a) = Some (m ++ y) /\
            is_prefix y x /\ is_prefix y a.
Proof.
  unfold margin_step. rewrite !starts_with_app.
  destruct (starts_with x a) eqn:E1.
  - exists x. split; [reflexivity|]. split; [exists []; symmetry; apply app_nil_r|].
    apply starts_with_iff, E1.
  - destruct (starts_with a x) eqn:E2.
    + exists a. split; [reflexivity|]. split; [apply starts_with_iff, E2|].
      exists []; symmetry; apply app_nil_r.
    + exists (common_prefix x a). rewrite common_prefix_app. split; [reflexivity|].
      apply common_prefix_prefix.
Qed.

Lemma margin_fold_app (m : list ascii) (As : list (list ascii)) (x : list ascii) :
  exists y, fold_left margin_step (map (fun a => m ++ a) As) (Some (m ++ x)) = Some (m ++ y) /\
            is_prefix y x /\ Forall (is_prefix y) As.
Proof.
  revert x. induction As as [|a As IH]; intros x; cbn [map fold_left].
  - exists x. split; [reflexivity|]. split; [exists []; symmetry; apply app_nil_r|constructor].
  - destruct (margin_step_app m x a) as (y1 & E1 & Hx1 & Ha1). rewrite E1.
    destruct (IH y1) as (y & E & Hy1 & Hall). exists y.
    split; [exact E|]. split; [eapply is_prefix_trans; eauto|].
    constructor; [eapply is_prefix_trans; eauto|exact Hall].
Qed.

Lemma split_nl_aux_app (l s cur : list ascii) :
  ~ In nl l -> split_nl_aux (l ++ s) cur = split_nl_aux s (rev l ++ cur).
Proof.
  revert cur. induction l as [|a l IH]; intros cur Hl; [reflexivity|].
  simpl. destruct (Ascii.eqb_spec a nl) as [->|_]; [exfalso; apply Hl; left; reflexivity|].
  rewrite IH by (intros H; apply Hl; right; exact H).
  rewrite <- app_assoc. reflexivity.
Qed.

Lemma split_nl_aux_nl (s cur : list ascii) :
  split_nl_aux (nl :: s) cur = rev cur :: split_nl_aux s [].
Proof. reflexivity. Qed.

Lemma split_nl_join (x : list ascii) (xs : list (list ascii)) :
  Forall (fun l => ~ In nl l) (x :: xs) -> split_nl (join [nl] (x :: xs)) = x :: xs.
Proof.
  unfold split_nl. revert x. induction xs as [|y ys IH]; intros x Hall;
    inversion Hall as [|? ? Hx Hrest]; subst.
  - simpl. rewrite <- (app_nil_r x) at 1. rewrite split_nl_aux_app by exact Hx.
    simpl. rewrite app_nil_r, rev_involutive. reflexivity.
  - change (join [nl] (x :: y :: ys)) with (x ++ [nl] ++ join [nl] (y :: ys)).
    rewrite split_nl_aux_app by exact Hx. cbn [app]. rewrite split_nl_aux_nl.
    rewrite app_nil_r, rev_involutive, IH by exact Hrest. reflexivity.
Qed.

Lemma leading_sp_tab_app (m l : list ascii) :
  forallb is_sp_tab m = true -> leading_sp_tab (m ++ l) = m ++ leading_sp_tab l.
Proof.
  induction m as [|c m IH]; simpl; [reflexivity|].
  intros H. apply andb_true_iff in H as [-> Hm]. rewrite IH by exact Hm. reflexivity.
Qed.

Lemma sp_tab_not_nl (m : list ascii) : forallb is_sp_tab m = true -> ~ In nl m.
Proof.
  intros H Hin. rewrite forallb_forall in H. specialize (H nl Hin). discriminate H.
Qed.

Lemma skipn_length_app (m l : list ascii) : skipn (List.length m) (m ++ l) = l.
Proof. induction m as [|c m IH]; simpl; auto. Qed.

(** Lines sharing a margin [m] of spaces and tabs, at least one line having
    no indentation of its own, and every line holding a character other
    than space or tab: [indent(..., strip=True)] removes exactly [m] and
    keeps the lines' relative indentation, as if the block had not been
    indented. *)
Theorem indent_strip_margin (m : list ascii) (l1 : list ascii) (ls : list (list ascii))
    (spaces : Z) :
  forallb is_sp_tab m = true ->
  Forall (fun l => ~ In nl l /\ forallb is_sp_tab l = false) (l1 :: ls) ->
  Exists (fun l => leading_sp_tab l = []) (l1 :: ls) ->
  indent (TStr (join [nl] (map (fun l => m ++ l) (l1 :: ls)))) spaces true
  = indent (TStr (join [nl] (l1 :: ls))) spaces false.
Proof.
  intros Hm Hall Hex.
  change (indent (TStr (join [nl] (map (fun l => m ++ l) (l1 :: ls)))) spaces true)
    with (indent (TStr (dedent (join [nl] (map (fun l => m ++ l) (l1 :: ls))))) spaces false).
  f_equal. f_equal. unfold dedent.
  assert (Hs : split_nl (join [nl] (map (fun l => m ++ l) (l1 :: ls)))
               = map (fun l => m ++ l) (l1 :: ls)).
  { apply (split_nl_join (m ++ l1) (map (fun l => m ++ l) ls)).
    change ((m ++ l1) :: map (fun l => m ++ l) ls) with (map (fun l => m ++ l) (l1 :: ls)).
    apply Forall_map. eapply Forall_impl; [|exact Hall].
    intros l [Hl _] Hin. apply in_app_or in Hin as [Hin|Hin];
      [exact (sp_tab_not_nl m Hm Hin)|exact (Hl Hin)]. }
  rewrite Hs.
  assert (Hclear : map clear_ws_line (map (fun l => m ++ l) (l1 :: ls))
                   = map (fun l => m ++ l) (l1 :: ls)).
  { rewrite map_map. apply map_ext_in. intros l Hin.
    rewrite Forall_forall in Hall. destruct (Hall l Hin) as [_ Hl].
    unfold clear_ws_line. rewrite forallb_app, Hm, Hl. reflexivity. }
  rewrite Hclear.
  assert (Hind : indents_of (map (fun l => m ++ l) (l1 :: ls))
                 = map (fun a => m ++ a) (map leading_sp_tab (l1 :: ls))).
  { unfold indents_of.
    rewrite (forallb_filter_id (fun l => negb (forallb is_sp_tab l))).
    - rewrite !map_map. apply map_ext. intros l. apply leading_sp_tab_app, Hm.
    - apply forallb_forall. intros l Hin. apply in_map_iff in Hin as (l0 & <- & Hin).
      rewrite Forall_forall in Hall. destruct (Hall l0 Hin) as [_ Hl].
      rewrite forallb_app, Hm, Hl. reflexivity. }
  rewrite Hind. cbn [map fold_left margin_step].
  destruct (margin_fold_app m (map leading_sp_tab ls) (leading_sp_tab l1))
    as (y & Ey & Hy1 & Hys).
  rewrite Ey.
  assert (Hy : y = []).
  { apply Exists_exists in Hex as (l & Hin & Hl).
    assert (Hp : is_prefix y (leading_sp_tab l)).
    { destruct Hin as [<-|Hin]; [exact Hy1|].
      rewrite Forall_forall in Hys. apply Hys, in_map, Hin. }
    rewrite Hl in Hp. destruct Hp as [t Ht]. symmetry in Ht.
    apply app_eq_nil in Ht as [-> _]. reflexivity. }
  subst y. rewrite app_nil_r.
  destruct m as [|c m'].
  - cbn [app]. rewrite map_id. reflexivity.
  - assert (Hd : forall l, drop_margin (c :: m') ((c :: m') ++ l) = l).
    { intros l. unfold drop_margin.
      rewrite (proj2 (starts_with_iff _ _)) by (exists l; reflexivity).
      apply skipn_length_app. }
    rewrite Hd, map_map. rewrite (map_ext _ (fun l => l) Hd), map_id. reflexivity.
Qed.

Lemma indent_strip_margin_witness :
  indent (TStr (join [nl] (map (fun l => lit "    " ++ l) [lit "a"; lit "  b"]))) 2 true
  = lit "  a" ++ [nl] ++ lit "    b".
Proof.
  rewrite (indent_strip_margin (lit "    ") (lit "a") [lit "  b"] 2).
  - reflexivity.
  - reflexivity.
  - repeat constructor; simpl; intuition discriminate.
  - left. reflexivity.
Defined.

(** [int(secs)] truncates toward zero: any float strictly between -1 and 1,
    negative ones included, is shown as ['00s'], while [-1] itself is not. *)
Theorem human_readable_seconds_fraction (m : Z) (e : nat) :
  Z.abs m < 2 ^ Z.of_nat e -> human_readable_seconds (PFloat m e) = lit "00s".
Proof.
  intros H. unfold human_readable_seconds, to_int, float_int. cbn [dnum dexp].
  assert (Hp : 0 < 2 ^ Z.of_nat e) by (apply Z.pow_pos_nonneg; lia).
  rewrite (proj2 (Z.quot_small_iff m (2 ^ Z.of_nat e) ltac:(lia))) by (rewrite (Z.abs_eq (2 ^ Z.of_nat e)); lia).
  reflexivity.
Qed.

Lemma human_readable_seconds_fraction_witness :
  Z.abs (-1) < 2 ^ Z.of_nat 1 /\ human_readable_seconds (PFloat (-1) 1) = lit "00s".
Proof.
  split; [reflexivity|]. apply human_readable_seconds_fraction. reflexivity.
Defined.
